(** * Focus navigation of the meeting-cost clock (src/main.py)

    A shallow embedding of [ClockApp]: the grid of [MyButton] objects, the
    focus coordinates, [change_button_focus], the four arrow actions and
    [action_enter], followed by the properties of the focus navigator.

    Python objects are mutable and shared, so the buttons live in a store
    indexed by object identity and the grid [_buttons] holds references.
    A Python exception leaves behind whatever was mutated before it was
    raised, so an outcome carries the application state in both cases. *)

From Stdlib Require Import ZArith List String Bool Lia Arith.
Import ListNotations.
Local Open Scope string_scope.
Local Open Scope list_scope.
Local Open Scope Z_scope.

(** ** Data model *)

Definition START : string := "START".
Definition STOP : string := "STOP".

(** [class Directions(Enum)]. *)
Inductive Directions : Type := UP | DOWN | LEFT | RIGHT.

(** The parameter [direction] of [change_button_focus] is only annotated
    with [Directions]: any object may be passed.  An object that is not a
    member of the enumeration is represented by its [repr]. *)
Inductive direction_arg : Type :=
| Member (d : Directions)
| Undefined (repr : string).

(** The callables bound to buttons: the bound method [self.watch_status] of
    the application, or some other function known by name only. *)
Inductive Callable : Type :=
| watch_status_method
| external (name : string).

(** Identity of a [MyButton] object. *)
Definition ref : Type := nat.

(** The attributes of a [MyButton]. *)
Record MyButton : Type := mkButton {
  _text : string;
  _callback : option Callable;
  _args : option (list string);
  in_focus : bool
}.

(** The attributes of [ClockApp] the navigator touches.  [store] maps each
    object identity to the button's attributes; [_status_value] is
    [self._status.value]; [invoked] is a ghost trace of the calls made to
    button callbacks, oldest first. *)
Record ClockApp : Type := mkApp {
  _focus_index_x : Z;
  _focus_index_y : Z;
  _buttons : list (list ref);
  status : string;
  _status_value : string;
  store : ref -> MyButton;
  invoked : list (Callable * list string)
}.

Inductive exn : Type := IndexError | TypeError.

(** ** Outcomes and the state-and-exception monad *)

Inductive outcome (A : Type) : Type :=
| Returned (a : A) (s : ClockApp)
| Raised (e : exn) (s : ClockApp).
Arguments Returned {A} a s.
Arguments Raised {A} e s.

(** The state a call leaves behind, however it ended. *)
Definition final {A} (o : outcome A) : ClockApp :=
  match o with
  | Returned _ s => s
  | Raised _ s => s
  end.

Definition M (A : Type) : Type := ClockApp -> outcome A.

Definition ret {A} (a : A) : M A := fun s => Returned a s.

Definition bind {A B} (m : M A) (f : A -> M B) : M B :=
  fun s =>
    match m s with
    | Returned a s' => f a s'
    | Raised e s' => Raised e s'
    end.

Definition raise {A} (e : exn) : M A := fun s => Raised e s.

Definition gets {A} (f : ClockApp -> A) : M A := fun s => Returned (f s) s.

Definition modify (f : ClockApp -> ClockApp) : M unit :=
  fun s => Returned tt (f s).

Declare Scope py_scope.
Delimit Scope py_scope with py.
Notation "x <- m ;; k" := (bind m (fun x => k))
  (at level 61, m at next level, right associativity) : py_scope.
Notation "m ;; k" := (bind m (fun _ => k))
  (at level 61, right associativity) : py_scope.
Local Open Scope py_scope.

(** ** Python lists *)

Definition len {A} (l : list A) : Z := Z.of_nat (List.length l).

(** [l[i]]: indices [0 .. len-1] count from the front, [-len .. -1] from
    the back, anything else is out of range. *)
Definition py_index {A} (l : list A) (i : Z) : option A :=
  if (0 <=? i) && (i <? len l) then nth_error l (Z.to_nat i)
  else if (- len l <=? i) && (i <? 0) then nth_error l (Z.to_nat (i + len l))
  else None.

Definition getitem {A} (l : list A) (i : Z) : M A :=
  match py_index l i with
  | Some a => ret a
  | None => raise IndexError
  end.

(** ** Attribute updates *)

Definition set_focus_index_x (v : Z) (s : ClockApp) : ClockApp :=
  mkApp v (_focus_index_y s) (_buttons s) (status s) (_status_value s)
        (store s) (invoked s).

Definition set_focus_index_y (v : Z) (s : ClockApp) : ClockApp :=
  mkApp (_focus_index_x s) v (_buttons s) (status s) (_status_value s)
        (store s) (invoked s).

Definition set_status_value (v : string) (s : ClockApp) : ClockApp :=
  mkApp (_focus_index_x s) (_focus_index_y s) (_buttons s) (status s) v
        (store s) (invoked s).

Definition set_status_attr (v : string) (s : ClockApp) : ClockApp :=
  mkApp (_focus_index_x s) (_focus_index_y s) (_buttons s) v
        (_status_value s) (store s) (invoked s).

Definition set_store (h : ref -> MyButton) (s : ClockApp) : ClockApp :=
  mkApp (_focus_index_x s) (_focus_index_y s) (_buttons s) (status s)
        (_status_value s) h (invoked s).

Definition log_call (f : Callable) (args : list string) (s : ClockApp)
  : ClockApp :=
  mkApp (_focus_index_x s) (_focus_index_y s) (_buttons s) (status s)
        (_status_value s) (store s) (invoked s ++ [(f, args)]).

Definition with_in_focus (v : bool) (b : MyButton) : MyButton :=
  mkButton (_text b) (_callback b) (_args b) v.

Definition update (h : ref -> MyButton) (r : ref) (b : MyButton)
  : ref -> MyButton :=
  fun r' => if Nat.eqb r' r then b else h r'.

(** [button.in_focus = v] on the object [r]. *)
Definition set_in_focus (r : ref) (v : bool) : M unit :=
  modify (fun s => set_store (update (store s) r (with_in_focus v (store s r))) s).

(** [ClockApp.watch_status]. *)
Definition watch_status (value : string) : M unit :=
  modify (set_status_value value).

(** [self.status = value]: [status] is a reactive attribute, the toolkit
    stores the value and runs the watcher [watch_status]. *)
Definition assign_status (value : string) : M unit :=
  modify (set_status_attr value) ;;
  watch_status value.

(** A call of [f] on the unpacked argument list [args], made by a button. *)
Definition call (f : Callable) (args : list string) : M unit :=
  modify (log_call f args) ;;
  match f with
  | watch_status_method =>
      match args with
      | [value] => watch_status value
      | _ => raise TypeError
      end
  | external _ => ret tt
  end.

(** [self._buttons[x][y]]. *)
Definition button_at (x y : Z) : M ref :=
  buttons <- gets _buttons ;;
  column <- getitem buttons x ;;
  getitem column y.

(** ** [ClockApp.on_mount]

    The two buttons are distinct objects, [0] for START and [1] for STOP;
    every identity not placed in the grid is irrelevant to the program. *)
Definition start_button : MyButton :=
  mkButton START (Some watch_status_method) (Some ["top_button"]) false.

Definition stop_button : MyButton :=
  mkButton STOP None None false.

Definition on_mount : ClockApp :=
  mkApp 0 0 [[0%nat]; [1%nat]] "--" "-"
        (fun r => if Nat.eqb r 0 then start_button else stop_button) [].

(** ** [ClockApp.change_button_focus] *)

Definition change_button_focus (direction : direction_arg) : M unit :=
  previous_index_x <- gets _focus_index_x ;;
  previous_index_y <- gets _focus_index_y ;;
  new_focus_index <-
    match direction with
    | Member UP =>
        focus_index_y <- gets _focus_index_y ;;
        if focus_index_y <=? 0
        then ret (previous_index_x, 0)
        else ret (previous_index_x, focus_index_y - 1)
    | Member DOWN =>
        focus_index_x <- gets _focus_index_x ;;
        focus_index_y <- gets _focus_index_y ;;
        buttons <- gets _buttons ;;
        column <- getitem buttons focus_index_x ;;
        if focus_index_y >=? len column - 1
        then ret (previous_index_x, len column - 1)
        else ret (previous_index_x, focus_index_y + 1)
    | Member LEFT =>
        focus_index_x <- gets _focus_index_x ;;
        if focus_index_x <=? 0
        then ret (0, previous_index_y)
        else ret (focus_index_x - 1, previous_index_y)
    | Member RIGHT =>
        focus_index_x <- gets _focus_index_x ;;
        buttons <- gets _buttons ;;
        if focus_index_x <=? len buttons - 1
        then ret (len buttons - 1, previous_index_y)
        else ret (focus_index_x + 1, previous_index_y)
    | Undefined repr =>
        assign_status (String.append "ERROR: Undefined direction=" repr) ;;
        ret (0, 0)
    end ;;
  let new_focus_index_x := fst new_focus_index in
  let new_focus_index_y := snd new_focus_index in
  previous <- button_at previous_index_x previous_index_y ;;
  set_in_focus previous false ;;
  new <- button_at new_focus_index_x new_focus_index_y ;;
  set_in_focus new true ;;
  modify (set_focus_index_x new_focus_index_x) ;;
  modify (set_focus_index_y new_focus_index_y).

(** ** The arrow actions *)

Definition action_up : M unit :=
  assign_status "up-arrow" ;; change_button_focus (Member UP).

Definition action_down : M unit :=
  assign_status "down-arrow" ;; change_button_focus (Member DOWN).

Definition action_left : M unit :=
  assign_status "left-arrow" ;; change_button_focus (Member LEFT).

Definition action_right : M unit :=
  assign_status "right-arrow" ;; change_button_focus (Member RIGHT).

(** ** [MyButton.interact] and [ClockApp.action_enter]

    [interact] is declared [async def]: calling it runs nothing, it builds
    a coroutine object holding the body, which runs only when the
    coroutine is awaited. *)
Inductive coroutine : Type := Coroutine (body : M unit).

Definition await (c : coroutine) : M unit :=
  match c with Coroutine body => body end.

Definition interact (self : ref) : coroutine :=
  Coroutine
    (this <- gets (fun s => store s self) ;;
     match _callback this with
     | Some callback =>
         match _args this with
         | None => call callback []
         | Some args => call callback args
         end
     | None => ret tt
     end).

(** [action_enter] calls [button.interact()] as a statement, without
    [await]: the coroutine object is built and dropped. *)
Definition action_enter : M unit :=
  assign_status "enter button" ;;
  focus_index_x <- gets _focus_index_x ;;
  focus_index_y <- gets _focus_index_y ;;
  button <- button_at focus_index_x focus_index_y ;;
  this <- gets (fun s => store s button) ;;
  if in_focus this
  then let _unawaited := interact button in ret tt
  else ret tt.

(** The key bindings of [on_load]. *)
Inductive key : Type := Kup | Kdown | Kleft | Kright | Kenter.

Definition dispatch (k : key) : M unit :=
  match k with
  | Kup => action_up
  | Kdown => action_down
  | Kleft => action_left
  | Kright => action_right
  | Kenter => action_enter
  end.

(** ** Vocabulary of the specification *)

Definition columns (g : list (list ref)) : Z := len g.

Definition rows_in_column (g : list (list ref)) (x : Z) : Z :=
  match py_index g x with
  | Some column => len column
  | None => 0
  end.

(** [(x, y)] designates an existing cell of the grid. *)
Definition in_grid (g : list (list ref)) (x y : Z) : Prop :=
  0 <= x < columns g /\ 0 <= y < rows_in_column g x.

Definition in_gridb (g : list (list ref)) (x y : Z) : bool :=
  (0 <=? x) && (x <? columns g) && (0 <=? y) && (y <? rows_in_column g x).

(** The focus position refers to an existing widget. *)
Definition valid (s : ClockApp) : Prop :=
  in_grid (_buttons s) (_focus_index_x s) (_focus_index_y s).

Definition widget_at (g : list (list ref)) (x y : Z) : option ref :=
  match py_index g x with
  | Some column => py_index column y
  | None => None
  end.

(** The widget references of the grid. *)
Definition widget_refs (s : ClockApp) : list ref := List.concat (_buttons s).

(** Exactly the widget at the focus position has its flag set. *)
Definition sole_focus (s : ClockApp) : Prop :=
  exists r,
    widget_at (_buttons s) (_focus_index_x s) (_focus_index_y s) = Some r /\
    forall r', In r' (widget_refs s) ->
               (in_focus (store s r') = true <-> r' = r).

(** The destination of a move in the words of the specification. *)
Definition spec_move (d : direction_arg) (g : list (list ref)) (x y : Z)
  : Z * Z :=
  match d with
  | Member UP => (x, Z.max (y - 1) 0)
  | Member DOWN => (x, Z.min (y + 1) (rows_in_column g x - 1))
  | Member LEFT => (Z.max (x - 1) 0, y)
  | Member RIGHT => (if x <=? columns g - 1 then columns g - 1 else x, y)
  | Undefined _ => (0, 0)
  end.

(** The states the two flag assignments and the status assignment of
    [change_button_focus] produce. *)
Definition announce (d : direction_arg) (s : ClockApp) : ClockApp :=
  match d with
  | Member _ => s
  | Undefined repr =>
      let msg := String.append "ERROR: Undefined direction=" repr in
      set_status_value msg (set_status_attr msg s)
  end.

Definition flag (r : ref) (v : bool) (s : ClockApp) : ClockApp :=
  set_store (update (store s) r (with_in_focus v (store s r))) s.

Definition place (x y : Z) (s : ClockApp) : ClockApp :=
  set_focus_index_y y (set_focus_index_x x s).

(** The state left by a sequence of moves; a move that raises leaves its
    partial effect behind. *)
Definition moves (ds : list direction_arg) (s : ClockApp) : ClockApp :=
  fold_left (fun s d => final (change_button_focus d s)) ds s.

(** [n] successive moves in one direction, stopping at the first exception. *)
Fixpoint repeat_move (d : direction_arg) (n : nat) : M unit :=
  match n with
  | O => ret tt
  | S k => change_button_focus d ;; repeat_move d k
  end.

(** A sequence of key presses, stopping at the first exception. *)
Fixpoint run (ks : list key) : M unit :=
  match ks with
  | [] => ret tt
  | k :: ks' => dispatch k ;; run ks'
  end.

(** The widget references whose flag differs between two states. *)
Definition toggled (s s' : ClockApp) : list ref :=
  filter (fun r => negb (Bool.eqb (in_focus (store s r)) (in_focus (store s' r))))
         (nodup Nat.eq_dec (widget_refs s)).

(** The shape of the application built by [on_mount]: its two columns
    of one button each, and a focus position in row [0]. *)
Definition mounted (s : ClockApp) : Prop :=
  _buttons s = _buttons on_mount /\
  _focus_index_y s = 0 /\
  (_focus_index_x s = 0 \/ _focus_index_x s = 1).

(** ** Sample states

    Two ragged grids, each with the focus on the second row of its taller
    column (reached from [(0, 0)] by [DOWN], resp. [RIGHT] then [DOWN]),
    and the application itself once a first arrow key gave the START
    button the focus. *)
Definition plain_button (focused : bool) : MyButton :=
  mkButton "" None None focused.

Definition ragged_origin : ClockApp :=
  mkApp 0 0 [[0%nat; 1%nat]; [2%nat]] "--" "-"
        (fun r => plain_button (Nat.eqb r 0)) [].

Definition tall_left : ClockApp :=
  mkApp 0 1 [[0%nat; 1%nat]; [2%nat]] "--" "-"
        (fun r => plain_button (Nat.eqb r 1)) [].

Definition tall_right : ClockApp :=
  mkApp 1 1 [[0%nat]; [1%nat; 2%nat]] "--" "-"
        (fun r => plain_button (Nat.eqb r 2)) [].

Definition start_focused : ClockApp := final (action_left on_mount).

(** ** The mouse handlers, the constructor and the rendering of [MyButton] *)

(** [MyButton.on_enter] and [MyButton.on_leave], on the object [self]. *)
Definition on_enter (self : ref) : M unit := set_in_focus self true.

Definition on_leave (self : ref) : M unit := set_in_focus self false.

(** [MyButton.__init__]; [in_focus] starts at the default of the reactive
    attribute. *)
Definition MyButton__init__ (text : option string)
    (callback : option Callable) (args : option (list string)) : MyButton :=
  mkButton (match text with Some t => t | None => "" end) callback args false.

(** What [render] builds: a panel around a text, with the style it was
    given if any, possibly wrapped in an alignment. *)
Inductive renderable : Type :=
| Panel (content : string) (style : option string)
| Align (inner : renderable) (align : string).

(** [MyButton.render]. *)
Definition render (self : MyButton) : renderable :=
  let pnl := Panel (_text self)
                   (Some (if in_focus self then "on red" else "")) in
  Align pnl "center".


(** The style of the panel a rendering shows. *)
Fixpoint panel_style (r : renderable) : option string :=
  match r with
  | Panel _ style => style
  | Align inner _ => panel_style inner
  end.

(** ** Further vocabulary *)

(** A sequence of moves, stopping at the first exception. *)
Fixpoint move_seq (ds : list direction_arg) : M unit :=
  match ds with
  | [] => ret tt
  | d :: ds' => change_button_focus d ;; move_seq ds'
  end.

(** All columns have the number of rows of the first one. *)
Definition rectangular (g : list (list ref)) : bool :=
  match g with
  | [] => true
  | first :: others => forallb (fun column => len column =? len first) others
  end.

(** No widget of the grid has its flag set. *)
Definition no_focus (s : ClockApp) : Prop :=
  forall r, In r (widget_refs s) -> in_focus (store s r) = false.

(** The focus state of the application: once an arrow key was pressed
    exactly the button at the focus position has its flag set, before
    that no button has. *)
Definition focus_state (arrow_seen : bool) (s : ClockApp) : Prop :=
  if arrow_seen then sole_focus s else no_focus s.

(** The position a sequence of moves leads to when every move goes to
    the destination the specification gives it. *)
Fixpoint walk (ds : list direction_arg) (g : list (list ref)) (p : Z * Z)
  : Z * Z :=
  match ds with
  | [] => p
  | d :: ds' => walk ds' g (spec_move d g (fst p) (snd p))
  end.

Definition is_arrow (k : key) : bool :=
  match k with
  | Kenter => false
  | _ => true
  end.


(** The arguments a button passes to its callback. *)
Definition call_arguments (b : MyButton) : list string :=
  match _args b with
  | Some args => args
  | None => []
  end.

(** A grid without a single column, and a three by two grid with the
    focus in its middle column. *)
Definition no_columns : ClockApp :=
  mkApp 0 0 [] "--" "-" (fun _ => plain_button false) [].

Definition three_by_two : ClockApp :=
  mkApp 1 1 [[0%nat; 1%nat]; [2%nat; 3%nat]; [4%nat; 5%nat]] "--" "-"
        (fun r => plain_button (Nat.eqb r 3)) [].

(** ** Proof automation *)

(** Unfolds the monadic operations of a method body. *)
Ltac run_monad :=
  cbv beta iota delta [bind gets ret raise modify button_at getitem
                       assign_status watch_status set_in_focus].

(** Runs the two subscripts and the two flag assignments once the
    destination is known; [Hc] and [Hp] give the column and the widget of
    the previous position. *)
Ltac commit_moves Hc Hp :=
  simpl; run_monad; unfold widget_at, flag, place; simpl;
  rewrite ?Hc; simpl; rewrite ?Hp; simpl;
  repeat match goal with
         | |- context [py_index ?l ?i] =>
             let E := fresh "E" in
             destruct (py_index l i) eqn:E; simpl; rewrite ?Hp; simpl
         end;
  try reflexivity; try congruence.

(** Decides every subscript and every test of a method body. *)
Ltac run_subscripts :=
  repeat (simpl;
          match goal with
          | H : py_index ?l ?i = _ |- context [py_index ?l ?i] => rewrite H
          | |- context [py_index ?l ?i] =>
              let E := fresh "E" in destruct (py_index l i) eqn:E
          | |- context [if ?b then _ else _] =>
              let E := fresh "E" in destruct b eqn:E
          end).

(** ** Python indexing *)

Lemma py_index_inside {A} (l : list A) (i : Z) :
  0 <= i < len l -> exists a, py_index l i = Some a.
Proof.
  intros Hi. unfold py_index.
  replace ((0 <=? i) && (i <? len l)) with true
    by (symmetry; apply andb_true_iff; split; [apply Z.leb_le | apply Z.ltb_lt]; lia).
  destruct (nth_error l (Z.to_nat i)) as [a|] eqn:E; [eauto|].
  apply nth_error_None in E. unfold len in Hi. lia.
Qed.

Lemma py_index_beyond {A} (l : list A) (i : Z) :
  0 <= i -> len l <= i -> py_index l i = None.
Proof.
  intros H0 Hn. unfold py_index.
  replace (i <? len l) with false by (symmetry; apply Z.ltb_ge; lia).
  replace (i <? 0) with false by (symmetry; apply Z.ltb_ge; lia).
  now rewrite !andb_false_r.
Qed.

Lemma py_index_In {A} (l : list A) (i : Z) (a : A) :
  py_index l i = Some a -> In a l.
Proof.
  unfold py_index.
  destruct ((0 <=? i) && (i <? len l)).
  - apply nth_error_In.
  - destruct ((- len l <=? i) && (i <? 0)); [apply nth_error_In | discriminate].
Qed.

Lemma in_grid_cell g x y :
  in_grid g x y ->
  exists column r,
    py_index g x = Some column /\ py_index column y = Some r /\
    rows_in_column g x = len column.
Proof.
  intros [Hx Hy]. unfold rows_in_column in *.
  destruct (py_index_inside g x Hx) as [column Hc]. rewrite Hc in *.
  destruct (py_index_inside column y Hy) as [r Hr]. eauto.
Qed.

Lemma in_grid_widget g x y :
  in_grid g x y -> exists r, widget_at g x y = Some r.
Proof.
  intros H. destruct (in_grid_cell g x y H) as (c & r & Hc & Hr & _).
  exists r. unfold widget_at. now rewrite Hc.
Qed.

Lemma in_gridb_spec g x y : in_gridb g x y = true <-> in_grid g x y.
Proof.
  unfold in_gridb, in_grid.
  rewrite !andb_true_iff, !Z.leb_le, !Z.ltb_lt. tauto.
Qed.

Lemma widget_at_In g x y r : widget_at g x y = Some r -> In r (List.concat g).
Proof.
  unfold widget_at. destruct (py_index g x) as [c|] eqn:E; [|discriminate].
  intros H. apply in_concat. exists c. eauto using py_index_In.
Qed.

(** A cell with non-negative coordinates holds a widget exactly when it is
    in the grid. *)
Lemma widget_at_outside g x y :
  0 <= x -> 0 <= y -> ~ in_grid g x y -> widget_at g x y = None.
Proof.
  intros Hx Hy Hn. unfold widget_at, in_grid, rows_in_column, columns in *.
  destruct (Z_lt_le_dec x (len g)) as [Hlt|Hge].
  - destruct (py_index g x) as [c|] eqn:E; [|reflexivity].
    apply py_index_beyond; lia.
  - now rewrite py_index_beyond.
Qed.

(** ** One move, as a function of the state

    From a valid position the destination computed by the code is the
    one of [spec_move]; the flag of the previous widget is cleared, and
    then either the destination widget exists and takes the focus, or the
    second subscript raises [IndexError] before the coordinates are
    assigned. *)
Lemma change_button_focus_step d s p :
  valid s ->
  widget_at (_buttons s) (_focus_index_x s) (_focus_index_y s) = Some p ->
  change_button_focus d s =
    let dest := spec_move d (_buttons s) (_focus_index_x s) (_focus_index_y s) in
    let s1 := flag p false (announce d s) in
    match widget_at (_buttons s) (fst dest) (snd dest) with
    | Some n => Returned tt (place (fst dest) (snd dest) (flag n true s1))
    | None => Raised IndexError s1
    end.
Proof.
  intros Hv Hp.
  destruct (in_grid_cell _ _ _ Hv) as (c & r & Hc & Hr & Hrows).
  destruct s as [x y g st sv h inv]. unfold valid, in_grid in Hv. simpl in *.
  unfold widget_at in Hp. rewrite Hc in Hp.
  destruct d as [[| | |]|repr]; unfold change_button_focus, spec_move.
  all: run_monad; simpl.
  - destruct (Z.leb_spec y 0).
    + replace (Z.max (y - 1) 0) with 0 by lia. commit_moves Hc Hp.
    + replace (Z.max (y - 1) 0) with (y - 1) by lia. commit_moves Hc Hp.
  - rewrite Hrows, Hc. unfold ret.
    destruct (Z.geb_spec y (len c - 1)).
    + replace (Z.min (y + 1) (len c - 1)) with (len c - 1) by lia. commit_moves Hc Hp.
    + replace (Z.min (y + 1) (len c - 1)) with (y + 1) by lia. commit_moves Hc Hp.
  - destruct (Z.leb_spec x 0).
    + replace (Z.max (x - 1) 0) with 0 by lia. commit_moves Hc Hp.
    + replace (Z.max (x - 1) 0) with (x - 1) by lia. commit_moves Hc Hp.
  - unfold columns in *. destruct (Z.leb_spec x (len g - 1)); [|lia].
    commit_moves Hc Hp.
  - commit_moves Hc Hp.
Qed.

Lemma spec_move_nonneg d g x y :
  in_grid g x y ->
  0 <= fst (spec_move d g x y) /\ 0 <= snd (spec_move d g x y).
Proof.
  intros [Hx Hy]. destruct d as [[| | |]|repr]; simpl; try lia.
  unfold columns in *. destruct (x <=? len g - 1); simpl; lia.
Qed.

(** The two ways a move from a valid position can end. *)
Lemma change_button_focus_cases d s :
  valid s ->
  exists p,
    widget_at (_buttons s) (_focus_index_x s) (_focus_index_y s) = Some p /\
    let dest := spec_move d (_buttons s) (_focus_index_x s) (_focus_index_y s) in
    let s1 := flag p false (announce d s) in
    (in_grid (_buttons s) (fst dest) (snd dest) /\
     exists n, widget_at (_buttons s) (fst dest) (snd dest) = Some n /\
               change_button_focus d s =
                 Returned tt (place (fst dest) (snd dest) (flag n true s1)))
    \/
    (~ in_grid (_buttons s) (fst dest) (snd dest) /\
     change_button_focus d s = Raised IndexError s1).
Proof.
  intros Hv. destruct (in_grid_widget _ _ _ Hv) as [p Hp].
  exists p. split; [exact Hp|].
  rewrite (change_button_focus_step d s p Hv Hp). cbv zeta.
  destruct (spec_move_nonneg d _ _ _ Hv) as [Hx Hy].
  set (dest := spec_move d (_buttons s) (_focus_index_x s) (_focus_index_y s)) in *.
  destruct (in_gridb (_buttons s) (fst dest) (snd dest)) eqn:E.
  - apply in_gridb_spec in E. left. split; [exact E|].
    destruct (in_grid_widget _ _ _ E) as [n Hn]. exists n. now rewrite Hn.
  - right.
    assert (Hout : ~ in_grid (_buttons s) (fst dest) (snd dest)).
    { intros H. apply in_gridb_spec in H. congruence. }
    split; [exact Hout|]. now rewrite (widget_at_outside _ _ _ Hx Hy Hout).
Qed.

Lemma buttons_announce d s : _buttons (announce d s) = _buttons s.
Proof. destruct d; reflexivity. Qed.

Lemma position_announce d s :
  _focus_index_x (announce d s) = _focus_index_x s /\
  _focus_index_y (announce d s) = _focus_index_y s.
Proof. destruct d; split; reflexivity. Qed.

(** No move changes the grid. *)
Lemma change_button_focus_buttons d s :
  valid s -> _buttons (final (change_button_focus d s)) = _buttons s.
Proof.
  intros Hv. destruct (change_button_focus_cases d s Hv) as (p & _ & H).
  cbv zeta in H. destruct H as [(_ & n & _ & ->) | (_ & ->)]; simpl;
    apply buttons_announce.
Qed.

(** Validity of the position survives a move, however it ends. *)
Lemma change_button_focus_valid d s :
  valid s -> valid (final (change_button_focus d s)).
Proof.
  intros Hv. destruct (change_button_focus_cases d s Hv) as (p & _ & H).
  cbv zeta in H. destruct H as [(Hin & n & _ & ->) | (_ & ->)];
    unfold valid in *; simpl; rewrite buttons_announce.
  - exact Hin.
  - now destruct (position_announce d s) as [-> ->].
Qed.

Lemma moves_valid_from ds : forall s, valid s -> valid (moves ds s).
Proof.
  induction ds as [|d ds IH]; intros s Hv; simpl.
  - exact Hv.
  - apply IH. now apply change_button_focus_valid.
Qed.

(** C2.  On every grid, ragged or not, in which the initial position
    [(0, 0)] exists, the focus position designates an existing widget after
    every sequence of moves: [0 <= x < columns] and
    [0 <= y < rows_in_column x].  A move that raises [IndexError] leaves the
    coordinates as they were. *)
Theorem C2_position_always_valid (ds : list direction_arg) (s0 : ClockApp) :
  _focus_index_x s0 = 0 ->
  _focus_index_y s0 = 0 ->
  in_grid (_buttons s0) 0 0 ->
  let s := moves ds s0 in
  0 <= _focus_index_x s < columns (_buttons s) /\
  0 <= _focus_index_y s < rows_in_column (_buttons s) (_focus_index_x s).
Proof.
  intros Hx Hy H0. apply (moves_valid_from ds s0).
  unfold valid. now rewrite Hx, Hy.
Qed.

(** A move whose destination cell exists returns, and the focus position
    becomes the destination. *)
Lemma change_button_focus_returns d s :
  valid s ->
  let dest := spec_move d (_buttons s) (_focus_index_x s) (_focus_index_y s) in
  in_grid (_buttons s) (fst dest) (snd dest) ->
  exists p n,
    widget_at (_buttons s) (_focus_index_x s) (_focus_index_y s) = Some p /\
    widget_at (_buttons s) (fst dest) (snd dest) = Some n /\
    change_button_focus d s =
      Returned tt (place (fst dest) (snd dest)
                         (flag n true (flag p false (announce d s)))).
Proof.
  intros Hv dest Hin.
  destruct (change_button_focus_cases d s Hv) as (p & Hp & H).
  cbv zeta in H. fold dest in H.
  destruct H as [(_ & n & Hn & Heq) | (Hout & _)]; [|contradiction].
  exists p, n. auto.
Qed.

(** A move whose destination cell is missing raises [IndexError] after the
    flag of the previous widget was cleared; the coordinates are kept. *)
Lemma change_button_focus_raises d s :
  valid s ->
  let dest := spec_move d (_buttons s) (_focus_index_x s) (_focus_index_y s) in
  ~ in_grid (_buttons s) (fst dest) (snd dest) ->
  exists p,
    widget_at (_buttons s) (_focus_index_x s) (_focus_index_y s) = Some p /\
    change_button_focus d s = Raised IndexError (flag p false (announce d s)).
Proof.
  intros Hv dest Hout.
  destruct (change_button_focus_cases d s Hv) as (p & Hp & H).
  cbv zeta in H. fold dest in H.
  destruct H as [(Hin & _) | (_ & Heq)]; [contradiction|].
  exists p. auto.
Qed.

(** ** Vertical moves *)

Lemma up_step s :
  valid s ->
  exists s',
    change_button_focus (Member UP) s = Returned tt s' /\
    _focus_index_x s' = _focus_index_x s /\
    _focus_index_y s' = Z.max (_focus_index_y s - 1) 0 /\
    valid s'.
Proof.
  intros Hv.
  assert (Hin : in_grid (_buttons s) (_focus_index_x s)
                        (Z.max (_focus_index_y s - 1) 0)).
  { destruct Hv as [Hx Hy]. split; [exact Hx | lia]. }
  destruct (change_button_focus_returns (Member UP) s Hv Hin)
    as (p & n & _ & _ & Heq).
  eexists. split; [exact Heq|]. simpl. repeat split; try apply Hin.
Qed.

(** C6.  From every valid position, [DOWN] returns with
    [y' = min (y + 1) (rows_in_column x - 1)] and [x' = x]. *)
Theorem C6_down_clamps_to_last_row (s : ClockApp) :
  valid s ->
  exists s',
    change_button_focus (Member DOWN) s = Returned tt s' /\
    _focus_index_y s' =
      Z.min (_focus_index_y s + 1)
            (rows_in_column (_buttons s) (_focus_index_x s) - 1) /\
    _focus_index_x s' = _focus_index_x s.
Proof.
  intros Hv.
  assert (Hin : in_grid (_buttons s) (_focus_index_x s)
                  (Z.min (_focus_index_y s + 1)
                         (rows_in_column (_buttons s) (_focus_index_x s) - 1))).
  { destruct Hv as [Hx Hy]. split; [exact Hx | lia]. }
  destruct (change_button_focus_returns (Member DOWN) s Hv Hin)
    as (p & n & _ & _ & Heq).
  eexists. split; [exact Heq|]. simpl. split; reflexivity.
Qed.

Lemma repeat_up (n : nat) : forall s,
  valid s ->
  exists s',
    repeat_move (Member UP) n s = Returned tt s' /\
    _focus_index_x s' = _focus_index_x s /\
    _focus_index_y s' = Z.max (_focus_index_y s - Z.of_nat n) 0.
Proof.
  induction n as [|n IH]; intros s Hv.
  - exists s. simpl. unfold ret. destruct Hv as [_ Hy].
    repeat split; lia.
  - destruct (up_step s Hv) as (s1 & Heq & Hx & Hy & Hv1).
    destruct (IH s1 Hv1) as (s' & Heq' & Hx' & Hy').
    exists s'. cbn [repeat_move]. unfold bind at 1. rewrite Heq.
    repeat split; [exact Heq' | congruence | lia].
Qed.

(** C7.  From every valid position, one [UP] returns with
    [y' = max (y - 1) 0] and [x] unchanged; [n] successive [UP] moves all
    return and leave [y' = max (y - n) 0], which is [0] as soon as
    [n >= y]; and [UP] at [y = 0] keeps the position. *)
Theorem C7_up_converges_to_row_zero (s : ClockApp) :
  valid s ->
  (exists s',
      change_button_focus (Member UP) s = Returned tt s' /\
      _focus_index_x s' = _focus_index_x s /\
      _focus_index_y s' = Z.max (_focus_index_y s - 1) 0) /\
  (forall n : nat,
      exists s',
        repeat_move (Member UP) n s = Returned tt s' /\
        _focus_index_x s' = _focus_index_x s /\
        _focus_index_y s' = Z.max (_focus_index_y s - Z.of_nat n) 0 /\
        (_focus_index_y s <= Z.of_nat n -> _focus_index_y s' = 0)) /\
  (_focus_index_y s = 0 ->
   exists s',
     change_button_focus (Member UP) s = Returned tt s' /\
     _focus_index_x s' = _focus_index_x s /\
     _focus_index_y s' = _focus_index_y s).
Proof.
  intros Hv. split; [|split].
  - destruct (up_step s Hv) as (s' & Heq & Hx & Hy & _). eauto.
  - intros n. destruct (repeat_up n s Hv) as (s' & Heq & Hx & Hy).
    exists s'. repeat split; try assumption. lia.
  - intros H0. destruct (up_step s Hv) as (s' & Heq & Hx & Hy & _).
    exists s'. repeat split; try assumption. lia.
Qed.

Lemma down_step s :
  valid s ->
  exists s',
    change_button_focus (Member DOWN) s = Returned tt s' /\
    _focus_index_x s' = _focus_index_x s /\
    _focus_index_y s' =
      Z.min (_focus_index_y s + 1)
            (rows_in_column (_buttons s) (_focus_index_x s) - 1) /\
    _buttons s' = _buttons s /\
    valid s'.
Proof.
  intros Hv.
  assert (Hin : in_grid (_buttons s) (_focus_index_x s)
                  (Z.min (_focus_index_y s + 1)
                         (rows_in_column (_buttons s) (_focus_index_x s) - 1))).
  { destruct Hv as [Hx Hy]. split; [exact Hx | lia]. }
  destruct (change_button_focus_returns (Member DOWN) s Hv Hin)
    as (p & n & _ & _ & Heq).
  eexists. split; [exact Heq|]. simpl. repeat split; try apply Hin.
Qed.

(** Repeated [DOWN] moves all return, and [y] climbs to the last row of
    the column and stays there. *)
Lemma repeat_down (n : nat) : forall s,
  valid s ->
  exists s',
    repeat_move (Member DOWN) n s = Returned tt s' /\
    _focus_index_x s' = _focus_index_x s /\
    _focus_index_y s' =
      Z.min (_focus_index_y s + Z.of_nat n)
            (rows_in_column (_buttons s) (_focus_index_x s) - 1).
Proof.
  induction n as [|n IH]; intros s Hv.
  - exists s. simpl. unfold ret. destruct Hv as [_ Hy].
    repeat split; lia.
  - destruct (down_step s Hv) as (s1 & Heq & Hx & Hy & Hg & Hv1).
    destruct (IH s1 Hv1) as (s' & Heq' & Hx' & Hy').
    exists s'. cbn [repeat_move]. unfold bind at 1. rewrite Heq.
    rewrite Hg, Hx in Hy'.
    repeat split; [exact Heq' | congruence | lia].
Qed.

(** ** Horizontal moves *)

(** C1, as amended.  From every valid position [(x, y)] the test
    [x <= columns - 1] of [RIGHT] holds, and whenever row [y] exists in the
    last column the move returns with [x' = columns - 1] and [y' = y]. *)
Theorem C1_right_jumps_to_last_column (s : ClockApp) :
  valid s ->
  _focus_index_y s < rows_in_column (_buttons s) (columns (_buttons s) - 1) ->
  (_focus_index_x s <=? columns (_buttons s) - 1) = true /\
  exists s',
    change_button_focus (Member RIGHT) s = Returned tt s' /\
    _focus_index_x s' = columns (_buttons s) - 1 /\
    _focus_index_y s' = _focus_index_y s.
Proof.
  intros Hv Hrow.
  assert (Hle : (_focus_index_x s <=? columns (_buttons s) - 1) = true).
  { apply Z.leb_le. destruct Hv as [Hx _]. lia. }
  split; [exact Hle|].
  assert (Hin : let dest := spec_move (Member RIGHT) (_buttons s)
                              (_focus_index_x s) (_focus_index_y s) in
                in_grid (_buttons s) (fst dest) (snd dest)).
  { simpl. rewrite Hle. simpl. destruct Hv as [Hx Hy]. split; lia. }
  destruct (change_button_focus_returns (Member RIGHT) s Hv Hin)
    as (p & n & _ & _ & Heq).
  eexists. split; [exact Heq|]. simpl. rewrite Hle. split; reflexivity.
Qed.

(** C1 fails as stated: on the grid [[0; 1]; [2]] at the valid position
    [(0, 1)], [RIGHT] raises [IndexError] on the missing cell [(1, 1)] and
    the column stays [0], not [columns - 1 = 1]. *)
Lemma C1_right_counterexample :
  valid tall_left /\
  columns (_buttons tall_left) - 1 = 1 /\
  exists s',
    change_button_focus (Member RIGHT) tall_left = Raised IndexError s' /\
    _focus_index_x s' = 0 /\ _focus_index_y s' = 1.
Proof.
  split; [apply in_gridb_spec; reflexivity|].
  split; [reflexivity|].
  eexists. split; [vm_compute; reflexivity|]. split; reflexivity.
Qed.

(** C5, as amended.  From every valid position [(x, y)], whenever row [y]
    exists in column [max (x - 1) 0], [LEFT] returns with
    [x' = max (x - 1) 0] and [y' = y]; [y] is not reclamped. *)
Theorem C5_left_decrements_column (s : ClockApp) :
  valid s ->
  _focus_index_y s <
    rows_in_column (_buttons s) (Z.max (_focus_index_x s - 1) 0) ->
  exists s',
    change_button_focus (Member LEFT) s = Returned tt s' /\
    _focus_index_x s' = Z.max (_focus_index_x s - 1) 0 /\
    _focus_index_y s' = _focus_index_y s.
Proof.
  intros Hv Hrow.
  assert (Hin : in_grid (_buttons s) (Z.max (_focus_index_x s - 1) 0)
                        (_focus_index_y s)).
  { destruct Hv as [Hx Hy]. split; lia. }
  destruct (change_button_focus_returns (Member LEFT) s Hv Hin)
    as (p & n & _ & _ & Heq).
  eexists. split; [exact Heq|]. simpl. split; reflexivity.
Qed.

(** C5 fails as stated: on the grid [[0]; [1; 2]] at the valid position
    [(1, 1)], [LEFT] raises [IndexError] on the missing cell [(0, 1)] and
    the column stays [1], not [max (1 - 1) 0 = 0]. *)
Lemma C5_left_counterexample :
  valid tall_right /\
  Z.max (_focus_index_x tall_right - 1) 0 = 0 /\
  exists s',
    change_button_focus (Member LEFT) tall_right = Raised IndexError s' /\
    _focus_index_x s' = 1 /\ _focus_index_y s' = 1.
Proof.
  split; [apply in_gridb_spec; reflexivity|].
  split; [reflexivity|].
  eexists. split; [vm_compute; reflexivity|]. split; reflexivity.
Qed.

(** ** The reset on an undefined direction *)

(** C8.  For a direction that is not a member of [Directions], from a
    valid position on a grid whose cell [(0, 0)] exists, the move returns;
    the position becomes [(0, 0)], the flag of the previous widget was
    cleared and then the flag of the widget at [(0, 0)] set, every other
    flag being kept. *)
Theorem C8_undefined_direction_resets (repr : string) (s : ClockApp) :
  valid s ->
  in_grid (_buttons s) 0 0 ->
  exists s' previous origin,
    widget_at (_buttons s) (_focus_index_x s) (_focus_index_y s)
      = Some previous /\
    widget_at (_buttons s) 0 0 = Some origin /\
    change_button_focus (Undefined repr) s = Returned tt s' /\
    _focus_index_x s' = 0 /\ _focus_index_y s' = 0 /\
    in_focus (store s' origin) = true /\
    (previous <> origin -> in_focus (store s' previous) = false) /\
    (forall r, r <> previous -> r <> origin ->
               in_focus (store s' r) = in_focus (store s r)).
Proof.
  intros Hv H0.
  destruct (change_button_focus_returns (Undefined repr) s Hv H0)
    as (p & n & Hp & Hn & Heq).
  exists (place 0 0 (flag n true (flag p false (announce (Undefined repr) s)))), p, n.
  simpl in Hn, Heq.
  repeat split; try assumption.
  - simpl. unfold update. now rewrite Nat.eqb_refl.
  - intros Hne. simpl. unfold update.
    apply Nat.eqb_neq in Hne. rewrite Hne. now rewrite Nat.eqb_refl.
  - intros r Hrp Hrn. simpl. unfold update.
    apply Nat.eqb_neq in Hrp, Hrn. now rewrite Hrn, Hrp.
Qed.

(** ** The focus flags *)

Lemma store_announce d s : store (announce d s) = store s.
Proof. destruct d; reflexivity. Qed.

(** Clearing the previous widget and setting the new one leaves the new
    one as the only focused widget, also when both are the same object. *)
Lemma sole_focus_moves d s p n x y :
  widget_at (_buttons s) x y = Some n ->
  (forall r', In r' (widget_refs s) ->
              (in_focus (store s r') = true <-> r' = p)) ->
  sole_focus (place x y (flag n true (flag p false (announce d s)))).
Proof.
  intros Hn Hsole. exists n. simpl. rewrite buttons_announce.
  split; [exact Hn|].
  intros r' Hin. unfold widget_refs in Hin. simpl in Hin.
  rewrite buttons_announce in Hin.
  unfold update. rewrite store_announce.
  destruct (Nat.eqb_spec r' n) as [->|Hne].
  - simpl. tauto.
  - destruct (Nat.eqb_spec r' p) as [->|Hnp].
    + simpl. split; [discriminate | contradiction].
    + specialize (Hsole r' Hin). split; [|contradiction].
      intros Ht. apply Hsole in Ht. contradiction.
Qed.

(** C4, as amended.  Starting from a valid state in which exactly the
    widget at the focus position has its flag set, every move whose
    destination cell exists returns and leaves exactly one flag set, that
    of the widget at the new focus position; this covers every direction,
    the reset on an undefined direction and the boundary self-loops. *)
Theorem C4_exactly_one_focused (d : direction_arg) (s : ClockApp) :
  valid s ->
  sole_focus s ->
  in_grid (_buttons s)
          (fst (spec_move d (_buttons s) (_focus_index_x s) (_focus_index_y s)))
          (snd (spec_move d (_buttons s) (_focus_index_x s) (_focus_index_y s))) ->
  exists s',
    change_button_focus d s = Returned tt s' /\ valid s' /\ sole_focus s'.
Proof.
  intros Hv (p0 & Hp0 & Hsole) Hin.
  destruct (change_button_focus_returns d s Hv Hin) as (p & n & Hp & Hn & Heq).
  assert (p0 = p) by congruence. subst p0.
  eexists. split; [exact Heq|]. split.
  - unfold valid. simpl. now rewrite buttons_announce.
  - now apply sole_focus_moves.
Qed.

(** C4 fails as stated: on the grid [[0; 1]; [2]] at [(0, 1)], with the
    flag of widget [1] alone set, [RIGHT] clears that flag and then raises
    [IndexError] on the missing cell [(1, 1)]: no flag is set afterwards. *)
Lemma C4_focus_counterexample :
  valid tall_left /\
  sole_focus tall_left /\
  (exists s', change_button_focus (Member RIGHT) tall_left
              = Raised IndexError s') /\
  (forall r, In r (widget_refs tall_left) ->
             in_focus (store (final (change_button_focus (Member RIGHT) tall_left)) r)
             = false) /\
  ~ sole_focus (final (change_button_focus (Member RIGHT) tall_left)).
Proof.
  assert (Hnone : forall r, In r (widget_refs tall_left) ->
             in_focus (store (final (change_button_focus (Member RIGHT) tall_left)) r)
             = false).
  { intros r Hin. vm_compute in Hin.
    destruct Hin as [<-|[<-|[<-|[]]]]; reflexivity. }
  split; [apply in_gridb_spec; reflexivity|].
  split.
  { exists 1%nat. split; [reflexivity|].
    intros r Hin. vm_compute in Hin.
    destruct Hin as [<-|[<-|[<-|[]]]]; vm_compute; split; congruence. }
  split; [eexists; vm_compute; reflexivity|].
  split; [exact Hnone|].
  intros (r & Hr & Hsole).
  assert (Hin : In r (widget_refs (final (change_button_focus (Member RIGHT) tall_left)))).
  { apply widget_at_In in Hr. exact Hr. }
  pose proof (proj2 (Hsole r Hin) eq_refl) as Ht.
  rewrite (Hnone r Hin) in Ht. discriminate.
Qed.

(** ** What a move writes *)

Lemma toggled_NoDup s s' : NoDup (toggled s s').
Proof. unfold toggled. apply NoDup_filter, NoDup_nodup. Qed.

Lemma toggled_flag_differs s s' r :
  In r (toggled s s') -> in_focus (store s r) <> in_focus (store s' r).
Proof.
  unfold toggled. intros H. apply filter_In in H. destruct H as [_ H].
  intros E. rewrite E in H. now rewrite Bool.eqb_reflx in H.
Qed.

(** C9, as amended.  A move in one of the four directions from a valid
    position changes the flag of at most two widget references: it clears
    the flag of the widget at the previous position and, when the
    destination cell exists, sets the flag of the widget there (the same
    widget at a boundary self-loop, whose flag ends set).  It changes no
    other flag, no other attribute of any widget, neither the grid, nor
    the status texts, nor the trace of callback calls. *)
Theorem C9_move_frame (d : Directions) (s : ClockApp) :
  valid s ->
  exists previous,
    widget_at (_buttons s) (_focus_index_x s) (_focus_index_y s)
      = Some previous /\
    let s' := final (change_button_focus (Member d) s) in
    let dest := spec_move (Member d) (_buttons s)
                          (_focus_index_x s) (_focus_index_y s) in
    let new := widget_at (_buttons s) (fst dest) (snd dest) in
    _buttons s' = _buttons s /\
    status s' = status s /\
    _status_value s' = _status_value s /\
    invoked s' = invoked s /\
    (forall r, _text (store s' r) = _text (store s r) /\
               _callback (store s' r) = _callback (store s r) /\
               _args (store s' r) = _args (store s r)) /\
    (forall r, r <> previous -> new <> Some r -> store s' r = store s r) /\
    (forall n, new = Some n ->
               in_focus (store s' n) = true /\
               (previous <> n -> in_focus (store s' previous) = false)) /\
    (new = None -> in_focus (store s' previous) = false) /\
    (List.length (toggled s s') <= 2)%nat.
Proof.
  intros Hv. destruct (in_grid_widget _ _ _ Hv) as [p Hp].
  exists p. split; [exact Hp|]. cbv zeta.
  set (dest := spec_move (Member d) (_buttons s)
                         (_focus_index_x s) (_focus_index_y s)).
  assert (Hframe : forall r, r <> p ->
            widget_at (_buttons s) (fst dest) (snd dest) <> Some r ->
            store (final (change_button_focus (Member d) s)) r = store s r).
  { intros r Hrp Hrn.
    rewrite (change_button_focus_step (Member d) s p Hv Hp). cbv zeta. fold dest.
    apply Nat.eqb_neq in Hrp.
    destruct (widget_at (_buttons s) (fst dest) (snd dest)) as [n|]; simpl;
      unfold update.
    - assert (Hne : r <> n) by congruence.
      apply Nat.eqb_neq in Hne. now rewrite Hne, Hrp.
    - now rewrite Hrp. }
  assert (Htwo : (List.length (toggled s (final (change_button_focus (Member d) s))) <= 2)%nat).
  { destruct (widget_at (_buttons s) (fst dest) (snd dest)) as [n|] eqn:En.
    - change 2%nat with (List.length [p; n]).
      apply NoDup_incl_length; [apply toggled_NoDup|].
      intros r Hr. apply toggled_flag_differs in Hr.
      destruct (Nat.eq_dec r p) as [->|Hrp]; [now left|].
      destruct (Nat.eq_dec r n) as [->|Hrn]; [right; now left|].
      exfalso. apply Hr. rewrite Hframe; congruence.
    - apply Nat.le_trans with (List.length [p]); [|simpl; lia].
      apply NoDup_incl_length; [apply toggled_NoDup|].
      intros r Hr. apply toggled_flag_differs in Hr.
      destruct (Nat.eq_dec r p) as [->|Hrp]; [now left|].
      exfalso. apply Hr. rewrite Hframe; congruence. }
  repeat match goal with |- _ /\ _ => split end;
    try exact Hframe; try exact Htwo;
    rewrite (change_button_focus_step (Member d) s p Hv Hp); cbv zeta; fold dest.
  - destruct (widget_at (_buttons s) (fst dest) (snd dest)); reflexivity.
  - destruct (widget_at (_buttons s) (fst dest) (snd dest)); reflexivity.
  - destruct (widget_at (_buttons s) (fst dest) (snd dest)); reflexivity.
  - destruct (widget_at (_buttons s) (fst dest) (snd dest)); reflexivity.
  - intros r. destruct (widget_at (_buttons s) (fst dest) (snd dest)) as [n|];
      simpl; unfold update;
      repeat match goal with
             | |- context [Nat.eqb ?a ?b] => destruct (Nat.eqb_spec a b); subst
             end; simpl; auto.
  - intros n ->. simpl. unfold update. rewrite Nat.eqb_refl. split; [reflexivity|].
    intros Hne. apply Nat.eqb_neq in Hne. now rewrite Hne, Nat.eqb_refl.
  - intros ->. simpl. unfold update. now rewrite Nat.eqb_refl.
Qed.

(** C9 fails as stated: in the application, with the START button focused
    at [(0, 0)], [UP] is a self-loop whose previous and new widget are the
    same object; both assignments hit it and no flag differs afterwards,
    so the flags that toggle are not two.  On the grid [[0; 1]; [2]] at
    [(0, 1)], [RIGHT] raises [IndexError] after it cleared the flag of the
    previous widget: one flag toggled, and there is no new widget. *)
Lemma C9_toggle_counterexample :
  valid start_focused /\
  sole_focus start_focused /\
  exists s',
    change_button_focus (Member UP) start_focused = Returned tt s' /\
    widget_at (_buttons start_focused) (_focus_index_x start_focused)
              (_focus_index_y start_focused) = Some 0%nat /\
    widget_at (_buttons s') (_focus_index_x s') (_focus_index_y s')
      = Some 0%nat /\
    toggled start_focused s' = [] /\
    List.length (toggled start_focused s') <> 2%nat /\
    exists s'',
      change_button_focus (Member RIGHT) tall_left = Raised IndexError s'' /\
      toggled tall_left s'' = [1%nat].
Proof.
  split; [apply in_gridb_spec; reflexivity|].
  split.
  { exists 0%nat. split; [reflexivity|].
    intros r Hin. vm_compute in Hin.
    destruct Hin as [<-|[<-|[]]]; vm_compute; split; congruence. }
  eexists. split; [vm_compute; reflexivity|].
  repeat split; try reflexivity.
  - vm_compute. discriminate.
  - eexists. split; [vm_compute; reflexivity | reflexivity].
Qed.

(** ** The application as mounted *)

Lemma action_enter_returns s :
  valid s ->
  action_enter s =
    Returned tt (set_status_value "enter button"
                   (set_status_attr "enter button" s)).
Proof.
  intros Hv. destruct (in_grid_cell _ _ _ Hv) as (c & r & Hc & Hr & _).
  destruct s as [x y g st sv h inv]. simpl in *.
  unfold action_enter. run_monad. simpl. rewrite Hc. simpl. rewrite Hr. simpl.
  destruct (in_focus (h r)); reflexivity.
Qed.

Lemma mounted_valid s : mounted s -> valid s.
Proof.
  intros (Hg & Hy & Hx). unfold valid. rewrite Hg, Hy.
  apply in_gridb_spec. destruct Hx as [-> | ->]; reflexivity.
Qed.

Lemma move_mounted d s :
  mounted s ->
  exists s', change_button_focus (Member d) s = Returned tt s' /\ mounted s'.
Proof.
  intros (Hg & Hy & Hx). destruct s as [x y g st sv h inv]. simpl in *.
  subst g y. unfold mounted.
  destruct Hx as [-> | ->]; destruct d;
    (eexists; split; [vm_compute; reflexivity | simpl; auto]).
Qed.

Lemma dispatch_mounted k s :
  mounted s -> exists s', dispatch k s = Returned tt s' /\ mounted s'.
Proof.
  intros Hm.
  destruct k; cbn [dispatch];
    try (unfold action_up, action_down, action_left, action_right;
         unfold bind at 1; unfold assign_status, watch_status, bind, modify;
         apply move_mounted; exact Hm).
  rewrite (action_enter_returns s (mounted_valid s Hm)).
  eexists. split; [reflexivity | exact Hm].
Qed.

Lemma run_mounted ks : forall s,
  mounted s -> exists s', run ks s = Returned tt s' /\ mounted s'.
Proof.
  induction ks as [|k ks IH]; intros s Hm.
  - exists s. split; [reflexivity | exact Hm].
  - destruct (dispatch_mounted k s Hm) as (s1 & Heq & Hm1).
    destruct (IH s1 Hm1) as (s' & Heq' & Hm').
    exists s'. cbn [run]. unfold bind at 1. rewrite Heq. auto.
Qed.

(** C10.  In the application as built by [on_mount] every sequence of key
    presses runs to its end with the focus in row [0], and from the state
    it reaches [UP] and [DOWN] return without changing the focus
    position. *)
Theorem C10_mounted_app_stays_in_row_zero (ks : list key) :
  exists s,
    run ks on_mount = Returned tt s /\
    _focus_index_y s = 0 /\
    (exists s',
        change_button_focus (Member UP) s = Returned tt s' /\
        _focus_index_x s' = _focus_index_x s /\
        _focus_index_y s' = _focus_index_y s) /\
    (exists s',
        change_button_focus (Member DOWN) s = Returned tt s' /\
        _focus_index_x s' = _focus_index_x s /\
        _focus_index_y s' = _focus_index_y s).
Proof.
  assert (H0 : mounted on_mount) by (repeat split; auto).
  destruct (run_mounted ks on_mount H0) as (s & Heq & Hg & Hy & Hx).
  exists s. split; [exact Heq|]. split; [exact Hy|].
  destruct s as [x y g st sv h inv]. simpl in *. subst g y.
  destruct Hx as [-> | ->]; split; eexists;
    (split; [vm_compute; reflexivity | split; reflexivity]).
Qed.

(** ** Activation *)

(** Whatever the state, [action_enter] makes no call to a callback. *)
Lemma action_enter_invokes_nothing s :
  invoked (final (action_enter s)) = invoked s.
Proof.
  destruct s as [x y g st sv h inv]. unfold action_enter. run_monad. simpl.
  destruct (py_index g x) as [c|]; simpl; [|reflexivity].
  destruct (py_index c y) as [r|]; simpl; [|reflexivity].
  destruct (in_focus (h r)); reflexivity.
Qed.

(** Awaiting the coroutine of [interact] on a button bound to [callback]
    with arguments [args] makes exactly one call, with exactly [args]. *)
Lemma await_interact_invokes_once r callback args s :
  _callback (store s r) = Some callback ->
  _args (store s r) = Some args ->
  invoked (final (await (interact r) s)) = invoked s ++ [(callback, args)].
Proof.
  intros Hc Ha. destruct s as [x y g st sv h inv]. simpl in *.
  unfold await, interact, call. run_monad. simpl. rewrite Hc, Ha. simpl.
  destruct callback as [|name]; [|reflexivity].
  destruct args as [|value [|? ?]]; reflexivity.
Qed.

(** C3.  The claim is that activating a focused widget bound to an action
    with arguments [A] invokes the action once, with exactly [A].  In the
    application, with the START button focused at [(0, 0)] and bound to
    [watch_status] with ["top_button"], [action_enter] returns having made
    no call at all, the status widget showing the text of the key press;
    the coroutine of [interact] it dropped would, awaited, have made the
    one call [watch_status("top_button")]. *)
Theorem C3_activation_never_runs_interact :
  widget_at (_buttons start_focused) (_focus_index_x start_focused)
            (_focus_index_y start_focused) = Some 0%nat /\
  in_focus (store start_focused 0%nat) = true /\
  _callback (store start_focused 0%nat) = Some watch_status_method /\
  _args (store start_focused 0%nat) = Some ["top_button"] /\
  (exists s',
      action_enter start_focused = Returned tt s' /\
      invoked s' = [] /\
      _status_value s' = "enter button") /\
  invoked (final (await (interact 0%nat) start_focused))
    = [(watch_status_method, ["top_button"])] /\
  _status_value (final (await (interact 0%nat) start_focused)) = "top_button".
Proof.
  repeat split; try reflexivity.
  eexists. split; [vm_compute; reflexivity|]. split; reflexivity.
Qed.

(** ** The theorems at sample states *)

Lemma C1_right_witness :
  exists s',
    change_button_focus (Member RIGHT) tall_right = Returned tt s' /\
    _focus_index_x s' = 1 /\ _focus_index_y s' = 1.
Proof.
  refine (proj2 (C1_right_jumps_to_last_column tall_right _ _)).
  - apply in_gridb_spec; reflexivity.
  - reflexivity.
Defined.

Lemma C2_position_witness :
  let s := moves [Member DOWN; Member RIGHT; Undefined "None";
                  Member RIGHT; Member DOWN; Member LEFT] ragged_origin in
  0 <= _focus_index_x s < columns (_buttons s) /\
  0 <= _focus_index_y s < rows_in_column (_buttons s) (_focus_index_x s).
Proof.
  apply C2_position_always_valid.
  - reflexivity.
  - reflexivity.
  - apply in_gridb_spec; reflexivity.
Defined.

Lemma C4_focus_witness :
  exists s',
    change_button_focus (Member UP) tall_left = Returned tt s' /\
    valid s' /\ sole_focus s'.
Proof.
  apply C4_exactly_one_focused.
  - apply in_gridb_spec; reflexivity.
  - exists 1%nat. split; [reflexivity|].
    intros r Hin. vm_compute in Hin.
    destruct Hin as [<-|[<-|[<-|[]]]]; vm_compute; split; congruence.
  - apply in_gridb_spec; reflexivity.
Defined.

Lemma C5_left_witness :
  exists s',
    change_button_focus (Member LEFT) tall_left = Returned tt s' /\
    _focus_index_x s' = 0 /\ _focus_index_y s' = 1.
Proof.
  apply (C5_left_decrements_column tall_left).
  - apply in_gridb_spec; reflexivity.
  - reflexivity.
Defined.

Lemma C6_down_witness :
  exists s',
    change_button_focus (Member DOWN) ragged_origin = Returned tt s' /\
    _focus_index_y s' = 1 /\ _focus_index_x s' = 0.
Proof.
  apply (C6_down_clamps_to_last_row ragged_origin).
  apply in_gridb_spec; reflexivity.
Defined.

Lemma C7_up_witness :
  exists s',
    repeat_move (Member UP) 3 tall_left = Returned tt s' /\
    _focus_index_x s' = 0 /\
    _focus_index_y s' = 0 /\
    (1 <= 3 -> _focus_index_y s' = 0).
Proof.
  refine (proj1 (proj2 (C7_up_converges_to_row_zero tall_left _)) 3%nat).
  apply in_gridb_spec; reflexivity.
Defined.

Lemma C8_reset_witness :
  exists s' previous origin,
    widget_at (_buttons tall_right) 1 1 = Some previous /\
    widget_at (_buttons tall_right) 0 0 = Some origin /\
    change_button_focus (Undefined "None") tall_right = Returned tt s' /\
    _focus_index_x s' = 0 /\ _focus_index_y s' = 0 /\
    in_focus (store s' origin) = true /\
    (previous <> origin -> in_focus (store s' previous) = false) /\
    (forall r, r <> previous -> r <> origin ->
               in_focus (store s' r) = in_focus (store tall_right r)).
Proof.
  apply (C8_undefined_direction_resets "None" tall_right).
  - apply in_gridb_spec; reflexivity.
  - apply in_gridb_spec; reflexivity.
Defined.

Lemma C9_frame_witness :
  (List.length (toggled tall_right
                  (final (change_button_focus (Member LEFT) tall_right)))
   <= 2)%nat.
Proof.
  destruct (C9_move_frame LEFT tall_right) as (p & _ & H).
  - apply in_gridb_spec; reflexivity.
  - apply H.
Defined.

(** ** The scenario of the specification, on the mounted application *)

(** [DOWN] stays at [(0, 0)]; [RIGHT] reaches [(1, 0)] and clears the flag
    of the START button; [LEFT] comes back to [(0, 0)]. *)
Example scenario_positions :
  let s1 := final (run [Kdown] on_mount) in
  let s2 := final (run [Kdown; Kright] on_mount) in
  let s3 := final (run [Kdown; Kright; Kenter; Kleft] on_mount) in
  (_focus_index_x s1, _focus_index_y s1) = (0, 0) /\
  (_focus_index_x s2, _focus_index_y s2) = (1, 0) /\
  in_focus (store s2 0%nat) = false /\
  in_focus (store s2 1%nat) = true /\
  (_focus_index_x s3, _focus_index_y s3) = (0, 0) /\
  in_focus (store s3 0%nat) = true /\
  in_focus (store s3 1%nat) = false.
Proof. repeat split; reflexivity. Qed.

(** The ragged sample state [tall_left] is the one [DOWN] reaches from the
    origin of its grid. *)
Example tall_left_reached :
  let s := final (change_button_focus (Member DOWN) ragged_origin) in
  _buttons s = _buttons tall_left /\
  (_focus_index_x s, _focus_index_y s) = (0, 1) /\
  forall r, In r (widget_refs s) ->
            in_focus (store s r) = in_focus (store tall_left r).
Proof.
  repeat split; try reflexivity.
  intros r Hin. vm_compute in Hin.
  destruct Hin as [<-|[<-|[<-|[]]]]; reflexivity.
Qed.

(** The ragged sample state [tall_right] is the one [RIGHT] then [DOWN]
    reach from the origin of its grid. *)
Example tall_right_reached :
  let origin := mkApp 0 0 (_buttons tall_right) "--" "-"
                      (fun r => plain_button (Nat.eqb r 0)) [] in
  let s := moves [Member RIGHT; Member DOWN] origin in
  (_focus_index_x s, _focus_index_y s) = (1, 1) /\
  forall r, In r (widget_refs s) ->
            in_focus (store s r) = in_focus (store tall_right r).
Proof.
  repeat split; try reflexivity.
  intros r Hin. vm_compute in Hin.
  destruct Hin as [<-|[<-|[<-|[]]]]; reflexivity.
Qed.

(** ** Moves and activation outside the grid *)

(** X1.  When the focus coordinates are non-negative and designate no cell
    of the grid (in particular on a grid without columns), a move in any
    of the four directions raises [IndexError] and leaves the whole state
    as it was: no flag is written and the coordinates are kept. *)
Theorem move_outside_grid_raises (d : Directions) (s : ClockApp) :
  0 <= _focus_index_x s ->
  0 <= _focus_index_y s ->
  ~ valid s ->
  change_button_focus (Member d) s = Raised IndexError s.
Proof.
  intros Hx Hy Hout.
  pose proof (widget_at_outside _ _ _ Hx Hy Hout) as Hnone.
  destruct s as [x y g st sv h inv]. simpl in *. unfold widget_at in Hnone.
  destruct (py_index g x) as [c|] eqn:Ec;
    destruct d; unfold change_button_focus; run_monad; simpl;
    rewrite ?Ec; simpl;
    repeat match goal with
           | |- context [if ?b then _ else _] => destruct b; simpl
           end;
    rewrite ?Ec; simpl; rewrite ?Hnone; reflexivity.
Qed.

Lemma move_outside_grid_witness :
  change_button_focus (Member DOWN) no_columns = Raised IndexError no_columns.
Proof.
  apply move_outside_grid_raises.
  - simpl. lia.
  - simpl. lia.
  - intros H. apply in_gridb_spec in H. discriminate.
Defined.



(** ** When a move fails *)

Lemma no_focus_after_clearing d s p :
  (forall r', In r' (widget_refs s) ->
              (in_focus (store s r') = true <-> r' = p)) ->
  no_focus (flag p false (announce d s)).
Proof.
  intros Hsole r Hin. unfold widget_refs in Hin. simpl in Hin.
  rewrite buttons_announce in Hin. simpl. unfold update.
  rewrite store_announce.
  destruct (Nat.eqb_spec r p) as [->|Hne]; [reflexivity|].
  destruct (in_focus (store s r)) eqn:E; [|reflexivity].
  apply (Hsole r Hin) in E. contradiction.
Qed.

(** X3.  From a valid position a move returns exactly when its destination
    cell exists.  Otherwise it raises [IndexError] with the coordinates
    unchanged, and if the widget at the focus position was the only one
    with its flag set, no widget has its flag set afterwards. *)
Theorem move_fails_iff_destination_missing (d : direction_arg) (s : ClockApp) :
  valid s ->
  let dest := spec_move d (_buttons s) (_focus_index_x s) (_focus_index_y s) in
  ((exists s', change_button_focus d s = Returned tt s') <->
   in_grid (_buttons s) (fst dest) (snd dest)) /\
  (~ in_grid (_buttons s) (fst dest) (snd dest) ->
   exists s',
     change_button_focus d s = Raised IndexError s' /\
     _focus_index_x s' = _focus_index_x s /\
     _focus_index_y s' = _focus_index_y s /\
     (sole_focus s -> no_focus s')).
Proof.
  intros Hv dest.
  destruct (change_button_focus_cases d s Hv) as (p & Hp & H).
  cbv zeta in H. fold dest in H.
  destruct H as [(Hin & n & _ & Heq) | (Hout & Heq)].
  - split; [|contradiction]. split; [auto | eauto].
  - split.
    + split; [|contradiction]. intros (s' & Hs'). congruence.
    + intros _. eexists. split; [exact Heq|].
      destruct (position_announce d s) as [Ex Ey].
      repeat split; try assumption.
      intros (p0 & Hp0 & Hsole). assert (p0 = p) by congruence. subst p0.
      now apply no_focus_after_clearing.
Qed.

Lemma move_fails_witness :
  exists s',
    change_button_focus (Member LEFT) tall_right = Raised IndexError s' /\
    _focus_index_x s' = 1 /\
    _focus_index_y s' = 1 /\
    (sole_focus tall_right -> no_focus s').
Proof.
  refine (proj2 (move_fails_iff_destination_missing (Member LEFT) tall_right _) _).
  - apply in_gridb_spec. reflexivity.
  - intros H. apply in_gridb_spec in H. discriminate.
Defined.

Lemma returning_move_focuses (d : direction_arg) (s : ClockApp) :
  valid s ->
  (forall r, In r (widget_refs s) ->
             widget_at (_buttons s) (_focus_index_x s) (_focus_index_y s)
               <> Some r ->
             in_focus (store s r) = false) ->
  in_grid (_buttons s)
          (fst (spec_move d (_buttons s) (_focus_index_x s) (_focus_index_y s)))
          (snd (spec_move d (_buttons s) (_focus_index_x s) (_focus_index_y s))) ->
  exists s',
    change_button_focus d s = Returned tt s' /\ valid s' /\ sole_focus s'.
Proof.
  intros Hv Hothers Hin.
  destruct (change_button_focus_returns d s Hv Hin) as (p & n & Hp & Hn & Heq).
  eexists. split; [exact Heq|]. split.
  - unfold valid. simpl. now rewrite buttons_announce.
  - exists n. simpl. rewrite buttons_announce. split; [exact Hn|].
    intros r Hr. unfold widget_refs in Hr. simpl in Hr.
    rewrite buttons_announce in Hr.
    unfold update. rewrite store_announce.
    destruct (Nat.eqb_spec r n) as [->|Hne]; [simpl; tauto|].
    destruct (Nat.eqb_spec r p) as [->|Hnp].
    + simpl. split; [discriminate | contradiction].
    + rewrite (Hothers r Hr) by congruence.
      split; [discriminate | contradiction].
Qed.

(** X4.  A move whose destination cell exists gives the focus to exactly
    one widget as soon as no widget other than the one at the focus
    position had its flag set before, whatever the flag of that one was:
    the first arrow key after start-up, when no flag is set yet, and a
    move made after the focused button lost its flag are covered. *)
Theorem move_establishes_sole_focus (d : direction_arg) (s : ClockApp) :
  valid s ->
  (forall r, In r (widget_refs s) ->
             widget_at (_buttons s) (_focus_index_x s) (_focus_index_y s)
               <> Some r ->
             in_focus (store s r) = false) ->
  in_grid (_buttons s)
          (fst (spec_move d (_buttons s) (_focus_index_x s) (_focus_index_y s)))
          (snd (spec_move d (_buttons s) (_focus_index_x s) (_focus_index_y s))) ->
  exists s',
    change_button_focus d s = Returned tt s' /\ valid s' /\ sole_focus s'.
Proof. apply returning_move_focuses. Qed.

Lemma move_establishes_witness :
  exists s',
    change_button_focus (Member RIGHT) on_mount = Returned tt s' /\
    valid s' /\ sole_focus s'.
Proof.
  apply move_establishes_sole_focus.
  - apply in_gridb_spec. reflexivity.
  - intros r Hr _. vm_compute in Hr.
    destruct Hr as [<-|[<-|[]]]; reflexivity.
  - apply in_gridb_spec. reflexivity.
Defined.

(** ** Frame of a move, from any state *)

(** Whether it returns or raises, and from a valid position or not, a move
    in one of the four directions keeps the grid, both status texts and
    the trace of callback calls. *)
Lemma member_move_frame d s :
  let s' := final (change_button_focus (Member d) s) in
  _buttons s' = _buttons s /\ status s' = status s /\
  _status_value s' = _status_value s /\ invoked s' = invoked s.
Proof.
  destruct s as [x y g st sv h inv].
  destruct d; unfold change_button_focus; run_monad;
    run_subscripts; repeat split; reflexivity.
Qed.

Lemma move_keeps_invoked d s :
  invoked (final (change_button_focus d s)) = invoked s.
Proof.
  destruct d as [d|repr]; [apply member_move_frame|].
  destruct s as [x y g st sv h inv].
  unfold change_button_focus; run_monad; run_subscripts; reflexivity.
Qed.

Lemma final_bind {A B} (m : M A) (f : A -> M B) s :
  final (bind m f s) =
    match m s with
    | Returned a s' => final (f a s')
    | Raised _ s' => s'
    end.
Proof. unfold bind. destruct (m s); reflexivity. Qed.

Lemma dispatch_keeps_invoked k s :
  invoked (final (dispatch k s)) = invoked s.
Proof.
  destruct k; cbn [dispatch];
    try (unfold action_up, action_down, action_left, action_right;
         rewrite final_bind; unfold assign_status, watch_status, bind, modify;
         now rewrite move_keeps_invoked).
  apply action_enter_invokes_nothing.
Qed.

(** X6.  No sequence of key presses, from any state, ever calls a button
    callback: the trace of calls after the sequence, run to its end or to
    its first exception, is the trace before it. *)
Theorem keys_never_invoke_a_callback (ks : list key) (s : ClockApp) :
  invoked (final (run ks s)) = invoked s.
Proof.
  revert s. induction ks as [|k ks IH]; intros s; [reflexivity|].
  cbn [run]. rewrite final_bind.
  pose proof (dispatch_keeps_invoked k s) as Hk.
  destruct (dispatch k s) as [[] s1 | e s1]; simpl in Hk.
  - now rewrite IH.
  - exact Hk.
Qed.

(** X7.  Awaited, the coroutine of [interact] calls the callback of the
    button exactly once, on the bound arguments or on none when [args] is
    [None], and calls nothing when no callback is bound, in which case it
    returns with the state untouched.  A call that [watch_status] rejects
    for its number of arguments raises [TypeError] and is in the trace all
    the same.  The coroutine never changes the focus coordinates, the grid,
    a button or the [status] attribute. *)
Theorem awaited_interact_calls_once (r : ref) (s : ClockApp) :
  let s' := final (await (interact r) s) in
  invoked s' =
    invoked s ++ match _callback (store s r) with
                 | Some callback => [(callback, call_arguments (store s r))]
                 | None => []
                 end /\
  (_callback (store s r) = None -> await (interact r) s = Returned tt s) /\
  _focus_index_x s' = _focus_index_x s /\
  _focus_index_y s' = _focus_index_y s /\
  _buttons s' = _buttons s /\
  store s' = store s /\
  status s' = status s.
Proof.
  destruct s as [x y g st sv h inv]. cbv zeta.
  unfold await, interact, call, call_arguments. run_monad. simpl.
  destruct (_callback (h r)) as [[|name]|]; simpl;
    destruct (_args (h r)) as [[|value [|? ?]]|]; simpl;
    repeat split; try reflexivity; try discriminate;
    now rewrite app_nil_r.
Qed.


(** ** The focus flags of the mounted application *)

Lemma mounted_destination_exists d s :
  mounted s ->
  in_grid (_buttons s)
    (fst (spec_move (Member d) (_buttons s) (_focus_index_x s) (_focus_index_y s)))
    (snd (spec_move (Member d) (_buttons s) (_focus_index_x s) (_focus_index_y s))).
Proof.
  intros (Hg & Hy & Hx). rewrite Hg, Hy. apply in_gridb_spec.
  destruct Hx as [-> | ->]; destruct d; reflexivity.
Qed.

Lemma focus_state_others b s :
  focus_state b s ->
  forall r, In r (widget_refs s) ->
            widget_at (_buttons s) (_focus_index_x s) (_focus_index_y s)
              <> Some r ->
            in_focus (store s r) = false.
Proof.
  destruct b; simpl.
  - intros (p & Hp & Hsole) r Hr Hne.
    destruct (in_focus (store s r)) eqn:E; [|reflexivity].
    apply (Hsole r Hr) in E. congruence.
  - intros Hnone r Hr _. now apply Hnone.
Qed.

Lemma dispatch_focus_state k b s :
  mounted s -> focus_state b s ->
  exists s',
    dispatch k s = Returned tt s' /\ mounted s' /\
    focus_state (b || is_arrow k) s'.
Proof.
  intros Hm Hf.
  assert (Harrow : forall d text,
             exists s',
               (assign_status text ;; change_button_focus (Member d)) s
                 = Returned tt s' /\ mounted s' /\ sole_focus s').
  { intros d text. unfold bind at 1.
    unfold assign_status, watch_status, bind, modify.
    set (s1 := set_status_value text (set_status_attr text s)).
    assert (Hm1 : mounted s1) by exact Hm.
    destruct (move_mounted d s1 Hm1) as (s' & Heq & Hm').
    destruct (returning_move_focuses (Member d) s1 (mounted_valid s1 Hm1))
      as (s'' & Heq' & _ & Hsole).
    - exact (focus_state_others b s Hf).
    - now apply mounted_destination_exists.
    - exists s'. repeat split; try apply Hm'; try assumption.
      assert (s'' = s') by congruence. now subst. }
  destruct k; cbn [dispatch is_arrow]; rewrite ?orb_true_r, ?orb_false_r;
    try apply Harrow.
  rewrite (action_enter_returns s (mounted_valid s Hm)).
  eexists. split; [reflexivity|]. split; [exact Hm|].
  destruct b; exact Hf.
Qed.

Lemma run_focus_state ks : forall b s,
  mounted s -> focus_state b s ->
  exists s',
    run ks s = Returned tt s' /\ mounted s' /\
    focus_state (b || existsb is_arrow ks) s'.
Proof.
  induction ks as [|k ks IH]; intros b s Hm Hf.
  - exists s. simpl. now rewrite orb_false_r.
  - destruct (dispatch_focus_state k b s Hm Hf) as (s1 & Heq & Hm1 & Hf1).
    destruct (IH _ s1 Hm1 Hf1) as (s' & Heq' & Hm' & Hf').
    exists s'. cbn [run existsb]. unfold bind at 1. rewrite Heq.
    rewrite orb_assoc. auto.
Qed.

(** X5.  The application starts with no button focused.  A sequence of
    key presses that holds an arrow key ends with exactly the button at
    the focus position focused; a sequence of enter keys alone ends with
    no button focused. *)
Theorem mounted_app_focus_after_keys (ks : list key) :
  no_focus on_mount /\
  exists s,
    run ks on_mount = Returned tt s /\
    (existsb is_arrow ks = true -> sole_focus s) /\
    (existsb is_arrow ks = false -> no_focus s).
Proof.
  assert (H0 : no_focus on_mount).
  { intros r Hr. vm_compute in Hr. destruct Hr as [<-|[<-|[]]]; reflexivity. }
  split; [exact H0|].
  assert (Hm : mounted on_mount) by (repeat split; auto).
  destruct (run_focus_state ks false on_mount Hm H0) as (s & Heq & _ & Hf).
  exists s. split; [exact Heq|]. simpl in Hf.
  split; intros E; rewrite E in Hf; exact Hf.
Qed.

(** ** Rectangular grids *)

Lemma rectangular_rows g x :
  rectangular g = true ->
  0 <= x < columns g ->
  rows_in_column g x = rows_in_column g 0.
Proof.
  intros Hrect Hx.
  assert (Hall : forall c, In c g -> len c = len (hd [] g)).
  { destruct g as [|first others]; [intros c []|].
    simpl in *. intros c [<-|Hc]; [reflexivity|].
    apply Z.eqb_eq. revert c Hc. now apply forallb_forall. }
  assert (H0 : 0 <= 0 < columns g) by lia.
  unfold rows_in_column.
  destruct (py_index_inside g x Hx) as [c Hc].
  destruct (py_index_inside g 0 H0) as [c0 Hc0].
  rewrite Hc, Hc0.
  rewrite (Hall c (py_index_In _ _ _ Hc)).
  now rewrite (Hall c0 (py_index_In _ _ _ Hc0)).
Qed.

(** On a rectangular grid every destination exists. *)
Lemma rectangular_destination d g x y :
  rectangular g = true ->
  in_grid g x y ->
  in_grid g (fst (spec_move d g x y)) (snd (spec_move d g x y)).
Proof.
  intros Hrect [Hx Hy].
  assert (Hrows : forall x', 0 <= x' < columns g ->
                             rows_in_column g x' = rows_in_column g x).
  { intros x' Hx'. rewrite (rectangular_rows g x' Hrect Hx').
    now rewrite (rectangular_rows g x Hrect Hx). }
  destruct d as [[| | |]|repr]; simpl.
  - split; [exact Hx | lia].
  - split; [exact Hx | lia].
  - assert (Hx' : 0 <= Z.max (x - 1) 0 < columns g) by lia.
    split; [exact Hx' | rewrite (Hrows _ Hx'); exact Hy].
  - replace (x <=? columns g - 1) with true by (symmetry; apply Z.leb_le; lia).
    assert (Hx' : 0 <= columns g - 1 < columns g) by lia.
    split; [exact Hx' | rewrite (Hrows _ Hx'); exact Hy].
  - assert (Hx' : 0 <= 0 < columns g) by lia.
    split; [exact Hx' | rewrite (Hrows _ Hx'); lia].
Qed.

Lemma sole_focus_others s :
  sole_focus s ->
  forall r, In r (widget_refs s) ->
            widget_at (_buttons s) (_focus_index_x s) (_focus_index_y s)
              <> Some r ->
            in_focus (store s r) = false.
Proof. exact (focus_state_others true s). Qed.

Lemma rectangular_step d s :
  rectangular (_buttons s) = true ->
  valid s ->
  exists s',
    change_button_focus d s = Returned tt s' /\
    (_focus_index_x s', _focus_index_y s')
      = spec_move d (_buttons s) (_focus_index_x s) (_focus_index_y s) /\
    _buttons s' = _buttons s /\
    valid s' /\
    (sole_focus s -> sole_focus s').
Proof.
  intros Hrect Hv.
  pose proof (rectangular_destination d _ _ _ Hrect Hv) as Hin.
  destruct (change_button_focus_returns d s Hv Hin) as (p & n & Hp & Hn & Heq).
  eexists. split; [exact Heq|]. simpl. rewrite buttons_announce.
  split; [now destruct (spec_move d _ _ _)|].
  split; [reflexivity|].
  split; [unfold valid; simpl; rewrite buttons_announce; exact Hin|].
  intros Hsole.
  destruct (returning_move_focuses d s Hv (sole_focus_others s Hsole) Hin)
    as (s'' & Heq' & _ & Hsole').
  rewrite Heq in Heq'. injection Heq' as <-. exact Hsole'.
Qed.

Lemma rectangular_moves ds : forall s,
  rectangular (_buttons s) = true ->
  valid s ->
  exists s',
    move_seq ds s = Returned tt s' /\
    (_focus_index_x s', _focus_index_y s')
      = walk ds (_buttons s) (_focus_index_x s, _focus_index_y s) /\
    _buttons s' = _buttons s /\
    valid s' /\
    (sole_focus s -> sole_focus s').
Proof.
  induction ds as [|d ds IH]; intros s Hrect Hv.
  - exists s. simpl. unfold ret. auto.
  - destruct (rectangular_step d s Hrect Hv) as (s1 & Heq & Hpos & Hg & Hv1 & Hs1).
    rewrite <- Hg in Hrect.
    destruct (IH s1 Hrect Hv1) as (s' & Heq' & Hpos' & Hg' & Hv' & Hs').
    exists s'. cbn [move_seq walk]. unfold bind at 1. rewrite Heq.
    split; [exact Heq'|]. simpl fst. simpl snd. rewrite <- Hpos, <- Hg.
    split; [exact Hpos'|]. split; [exact Hg'|]. split; [exact Hv'|]. auto.
Qed.

(** X8.  On a grid whose columns all have the same number of rows, every
    sequence of moves from a valid position runs to its end without
    exception; the position it reaches is the one obtained by following,
    move after move, the destination function of the specification; the
    position stays valid and, if exactly the widget at the focus position
    was focused at the start, the same holds at the end. *)
Theorem rectangular_grid_moves_never_fail
    (ds : list direction_arg) (s : ClockApp) :
  rectangular (_buttons s) = true ->
  valid s ->
  exists s',
    move_seq ds s = Returned tt s' /\
    (_focus_index_x s', _focus_index_y s')
      = walk ds (_buttons s) (_focus_index_x s, _focus_index_y s) /\
    _buttons s' = _buttons s /\
    valid s' /\
    (sole_focus s -> sole_focus s').
Proof. apply rectangular_moves. Qed.

Lemma rectangular_grid_witness :
  exists s',
    move_seq [Member RIGHT; Member UP; Undefined "None"; Member DOWN;
              Member LEFT] three_by_two = Returned tt s' /\
    (_focus_index_x s', _focus_index_y s') = (0, 1) /\
    _buttons s' = _buttons three_by_two /\
    valid s' /\
    (sole_focus three_by_two -> sole_focus s').
Proof.
  apply (rectangular_grid_moves_never_fail
           [Member RIGHT; Member UP; Undefined "None"; Member DOWN; Member LEFT]
           three_by_two).
  - reflexivity.
  - apply in_gridb_spec. reflexivity.
Defined.

(** ** Where repeated moves lead *)

Lemma walk_app a b g p : walk (a ++ b) g p = walk b g (walk a g p).
Proof. revert p. induction a as [|d a IH]; intros p; simpl; auto. Qed.

Lemma walk_left n g : forall x y,
  0 <= x ->
  walk (repeat (Member LEFT) n) g (x, y) = (Z.max (x - Z.of_nat n) 0, y).
Proof.
  induction n as [|n IH]; intros x y Hx.
  - simpl. f_equal. lia.
  - cbn [repeat walk spec_move fst snd]. rewrite IH by lia. f_equal. lia.
Qed.

Lemma walk_up n g : forall x y,
  0 <= y ->
  walk (repeat (Member UP) n) g (x, y) = (x, Z.max (y - Z.of_nat n) 0).
Proof.
  induction n as [|n IH]; intros x y Hy.
  - simpl. f_equal. lia.
  - cbn [repeat walk spec_move fst snd]. rewrite IH by lia. f_equal. lia.
Qed.

Lemma walk_down n g : forall x y,
  y <= rows_in_column g x - 1 ->
  walk (repeat (Member DOWN) n) g (x, y)
    = (x, Z.min (y + Z.of_nat n) (rows_in_column g x - 1)).
Proof.
  induction n as [|n IH]; intros x y Hy.
  - simpl. f_equal. lia.
  - cbn [repeat walk spec_move fst snd]. rewrite IH by lia. f_equal. lia.
Qed.

(** X9.  On a grid whose columns all have the same number of rows, [n]
    successive [LEFT] moves from a valid position all return and leave
    [x' = max (x - n) 0] with [y] unchanged: the focus reaches column [0]
    after [x] moves and stays there. *)
Theorem left_converges_to_column_zero (n : nat) (s : ClockApp) :
  rectangular (_buttons s) = true ->
  valid s ->
  exists s',
    move_seq (repeat (Member LEFT) n) s = Returned tt s' /\
    _focus_index_x s' = Z.max (_focus_index_x s - Z.of_nat n) 0 /\
    _focus_index_y s' = _focus_index_y s /\
    (_focus_index_x s <= Z.of_nat n -> _focus_index_x s' = 0).
Proof.
  intros Hrect Hv.
  destruct (rectangular_moves (repeat (Member LEFT) n) s Hrect Hv)
    as (s' & Heq & Hpos & _).
  rewrite walk_left in Hpos by apply Hv.
  injection Hpos as Hx Hy.
  exists s'. repeat split; try assumption. lia.
Qed.

Lemma left_converges_witness :
  exists s',
    move_seq (repeat (Member LEFT) 4) three_by_two = Returned tt s' /\
    _focus_index_x s' = 0 /\
    _focus_index_y s' = 1 /\
    (1 <= 4 -> _focus_index_x s' = 0).
Proof.
  apply (left_converges_to_column_zero 4 three_by_two).
  - reflexivity.
  - apply in_gridb_spec. reflexivity.
Defined.

(** The keys that lead to the cell [(tx, ty)]: [RIGHT] to the last column,
    [LEFT] back to column [tx], [UP] to row [0], [DOWN] to row [ty]. *)
Lemma walk_route g x y tx ty :
  in_grid g x y ->
  in_grid g tx ty ->
  walk (Member RIGHT
          :: repeat (Member LEFT) (Z.to_nat (columns g - 1 - tx))
          ++ repeat (Member UP) (Z.to_nat y)
          ++ repeat (Member DOWN) (Z.to_nat ty)) g (x, y)
    = (tx, ty).
Proof.
  intros [Hx Hy] [Htx Hty].
  cbn [walk spec_move fst snd].
  replace (x <=? columns g - 1) with true by (symmetry; apply Z.leb_le; lia).
  rewrite !walk_app.
  rewrite walk_left by lia.
  replace (Z.max (columns g - 1 - Z.of_nat (Z.to_nat (columns g - 1 - tx))) 0)
    with tx by lia.
  rewrite walk_up by lia.
  replace (Z.max (y - Z.of_nat (Z.to_nat y)) 0) with 0 by lia.
  rewrite walk_down by lia.
  f_equal; lia.
Qed.

(** X10.  On a grid whose columns all have the same number of rows every
    widget can be given the focus from the keyboard: from any valid
    position and for any cell of the grid there is a sequence of moves
    that runs without exception and ends on that cell, although [RIGHT]
    only ever jumps to the last column. *)
Theorem every_cell_is_reachable (s : ClockApp) (tx ty : Z) :
  rectangular (_buttons s) = true ->
  valid s ->
  in_grid (_buttons s) tx ty ->
  exists ds s',
    Forall (fun d => exists m, d = Member m) ds /\
    move_seq ds s = Returned tt s' /\
    _focus_index_x s' = tx /\
    _focus_index_y s' = ty /\
    (sole_focus s -> sole_focus s').
Proof.
  intros Hrect Hv Ht.
  set (ds := Member RIGHT
               :: repeat (Member LEFT)
                         (Z.to_nat (columns (_buttons s) - 1 - tx))
               ++ repeat (Member UP) (Z.to_nat (_focus_index_y s))
               ++ repeat (Member DOWN) (Z.to_nat ty)).
  destruct (rectangular_moves ds s Hrect Hv) as (s' & Heq & Hpos & _ & _ & Hs).
  unfold ds in Hpos. rewrite (walk_route _ _ _ tx ty Hv Ht) in Hpos.
  injection Hpos as Hx Hy.
  exists ds, s'. repeat split; try assumption.
  unfold ds. constructor; [eauto|].
  repeat (apply Forall_app; split);
    apply Forall_forall; intros d Hd; apply repeat_spec in Hd; eauto.
Qed.

Lemma every_cell_witness :
  exists ds s',
    Forall (fun d => exists m, d = Member m) ds /\
    move_seq ds three_by_two = Returned tt s' /\
    _focus_index_x s' = 1 /\
    _focus_index_y s' = 0 /\
    (sole_focus three_by_two -> sole_focus s').
Proof.
  apply (every_cell_is_reachable three_by_two 1 0).
  - reflexivity.
  - apply in_gridb_spec. reflexivity.
  - apply in_gridb_spec. reflexivity.
Defined.

(** X11.  On any grid, [n] successive [DOWN] moves from a valid position
    all return and leave [y' = min (y + n) (rows_in_column x - 1)] with
    [x] unchanged: the focus reaches the last row of its column after
    [rows_in_column x - 1 - y] moves and stays there. *)
Theorem down_converges_to_last_row (n : nat) (s : ClockApp) :
  valid s ->
  exists s',
    repeat_move (Member DOWN) n s = Returned tt s' /\
    _focus_index_x s' = _focus_index_x s /\
    _focus_index_y s' =
      Z.min (_focus_index_y s + Z.of_nat n)
            (rows_in_column (_buttons s) (_focus_index_x s) - 1) /\
    (rows_in_column (_buttons s) (_focus_index_x s) - 1 - _focus_index_y s
       <= Z.of_nat n ->
     _focus_index_y s' = rows_in_column (_buttons s) (_focus_index_x s) - 1).
Proof.
  intros Hv. destruct (repeat_down n s Hv) as (s' & Heq & Hx & Hy).
  exists s'. repeat split; try assumption. lia.
Qed.

Lemma down_converges_witness :
  exists s',
    repeat_move (Member DOWN) 3 ragged_origin = Returned tt s' /\
    _focus_index_x s' = 0 /\
    _focus_index_y s' = 1 /\
    (2 - 1 - 0 <= 3 -> _focus_index_y s' = 1).
Proof.
  apply (down_converges_to_last_row 3 ragged_origin).
  apply in_gridb_spec. reflexivity.
Defined.

(** ** The mouse handlers against the navigator *)

Lemma on_enter_flag r s : on_enter r s = Returned tt (flag r true s).
Proof. reflexivity. Qed.

Lemma on_leave_flag r s : on_leave r s = Returned tt (flag r false s).
Proof. reflexivity. Qed.

(** X12.  The mouse handlers write the same flag as the navigator without
    consulting the focus position.  When exactly the widget at the focus
    position is focused, the pointer entering another widget of the grid
    leaves both flags set, so the focus is no longer exclusive, and the
    pointer leaving the widget at the focus position leaves no flag set;
    the focus coordinates are unchanged in both cases. *)
Theorem hover_breaks_exclusive_focus (s : ClockApp) (p r : ref) :
  widget_at (_buttons s) (_focus_index_x s) (_focus_index_y s) = Some p ->
  sole_focus s ->
  In r (widget_refs s) ->
  r <> p ->
  (exists s1,
      on_enter r s = Returned tt s1 /\
      _focus_index_x s1 = _focus_index_x s /\
      _focus_index_y s1 = _focus_index_y s /\
      in_focus (store s1 p) = true /\
      in_focus (store s1 r) = true /\
      ~ sole_focus s1) /\
  (exists s2,
      on_leave p s = Returned tt s2 /\
      _focus_index_x s2 = _focus_index_x s /\
      _focus_index_y s2 = _focus_index_y s /\
      no_focus s2).
Proof.
  intros Hp (p0 & Hp0 & Hsole) Hr Hne.
  assert (p0 = p) by congruence. subst p0.
  assert (Hpin : In p (widget_refs s)) by (eapply widget_at_In; eauto).
  split.
  - exists (flag r true s). rewrite on_enter_flag.
    assert (Hpf : in_focus (store (flag r true s) p) = true).
    { simpl. unfold update. apply not_eq_sym, Nat.eqb_neq in Hne.
      rewrite Hne. now apply Hsole. }
    assert (Hrf : in_focus (store (flag r true s) r) = true).
    { simpl. unfold update. now rewrite Nat.eqb_refl. }
    repeat split; try assumption.
    intros (q & Hq & Hsole').
    simpl in Hq. assert (q = p) by congruence. subst q.
    apply (Hsole' r Hr) in Hrf. contradiction.
  - exists (flag p false s). rewrite on_leave_flag.
    repeat split.
    intros q Hq. simpl. unfold update.
    destruct (Nat.eqb_spec q p) as [->|Hqp]; [reflexivity|].
    destruct (in_focus (store s q)) eqn:E; [|reflexivity].
    apply (Hsole q Hq) in E. contradiction.
Qed.

Lemma hover_witness :
  (exists s1,
      on_enter 2%nat tall_left = Returned tt s1 /\
      _focus_index_x s1 = 0 /\
      _focus_index_y s1 = 1 /\
      in_focus (store s1 1%nat) = true /\
      in_focus (store s1 2%nat) = true /\
      ~ sole_focus s1) /\
  (exists s2,
      on_leave 1%nat tall_left = Returned tt s2 /\
      _focus_index_x s2 = 0 /\
      _focus_index_y s2 = 1 /\
      no_focus s2).
Proof.
  apply (hover_breaks_exclusive_focus tall_left 1%nat 2%nat).
  - reflexivity.
  - exists 1%nat. split; [reflexivity|].
    intros r Hin. vm_compute in Hin.
    destruct Hin as [<-|[<-|[<-|[]]]]; vm_compute; split; congruence.
  - vm_compute. auto.
  - discriminate.
Defined.

(** X13.  The pointer entering and then leaving the widget at the focus
    position does not give it its flag back: afterwards no widget of the
    grid is focused although the focus coordinates still designate it.
    The next move whose destination cell exists, a boundary self-loop
    included, leaves exactly the widget at the new position focused. *)
Theorem move_restores_focus_after_hover
    (d : direction_arg) (s : ClockApp) (p : ref) :
  valid s ->
  widget_at (_buttons s) (_focus_index_x s) (_focus_index_y s) = Some p ->
  sole_focus s ->
  in_grid (_buttons s)
          (fst (spec_move d (_buttons s) (_focus_index_x s) (_focus_index_y s)))
          (snd (spec_move d (_buttons s) (_focus_index_x s) (_focus_index_y s))) ->
  exists s1,
    (on_enter p ;; on_leave p) s = Returned tt s1 /\
    _focus_index_x s1 = _focus_index_x s /\
    _focus_index_y s1 = _focus_index_y s /\
    no_focus s1 /\
    exists s2,
      change_button_focus d s1 = Returned tt s2 /\ sole_focus s2.
Proof.
  intros Hv Hp (p0 & Hp0 & Hsole) Hin.
  assert (p0 = p) by congruence. subst p0.
  exists (flag p false (flag p true s)).
  assert (Hnone : no_focus (flag p false (flag p true s))).
  { intros q Hq. simpl. unfold update.
    destruct (Nat.eqb_spec q p) as [->|Hqp]; [reflexivity|].
    destruct (in_focus (store s q)) eqn:E; [|reflexivity].
    apply (Hsole q Hq) in E. contradiction. }
  repeat split; try assumption.
  destruct (returning_move_focuses d (flag p false (flag p true s)))
    as (s2 & Heq & _ & Hs2).
  - exact Hv.
  - intros q Hq _. now apply Hnone.
  - exact Hin.
  - eauto.
Qed.

Lemma move_restores_witness :
  exists s1,
    (on_enter 1%nat ;; on_leave 1%nat) tall_left = Returned tt s1 /\
    _focus_index_x s1 = 0 /\
    _focus_index_y s1 = 1 /\
    no_focus s1 /\
    exists s2,
      change_button_focus (Member DOWN) s1 = Returned tt s2 /\ sole_focus s2.
Proof.
  apply (move_restores_focus_after_hover (Member DOWN) tall_left 1%nat).
  - apply in_gridb_spec. reflexivity.
  - reflexivity.
  - exists 1%nat. split; [reflexivity|].
    intros r Hin. vm_compute in Hin.
    destruct Hin as [<-|[<-|[<-|[]]]]; vm_compute; split; congruence.
  - apply in_gridb_spec. reflexivity.
Defined.

(** ** What is drawn *)

(** X15.  After a move whose destination cell exists, made when no widget
    other than the one at the focus position was focused, every button of
    the grid is drawn as a centred panel around its own text, and the
    panel has the style "on red" for the widget at the destination and
    the empty style for every other one. *)
Theorem only_the_focused_button_is_highlighted
    (d : direction_arg) (s : ClockApp) :
  valid s ->
  (forall r, In r (widget_refs s) ->
             widget_at (_buttons s) (_focus_index_x s) (_focus_index_y s)
               <> Some r ->
             in_focus (store s r) = false) ->
  in_grid (_buttons s)
          (fst (spec_move d (_buttons s) (_focus_index_x s) (_focus_index_y s)))
          (snd (spec_move d (_buttons s) (_focus_index_x s) (_focus_index_y s))) ->
  exists s' n,
    change_button_focus d s = Returned tt s' /\
    widget_at (_buttons s') (_focus_index_x s') (_focus_index_y s') = Some n /\
    forall r, In r (widget_refs s') ->
      render (store s' r) =
        Align (Panel (_text (store s r))
                     (Some (if Nat.eqb r n then "on red" else "")))
              "center" /\
      (panel_style (render (store s' r)) = Some "on red" <-> r = n).
Proof.
  intros Hv Hothers Hin.
  destruct (change_button_focus_returns d s Hv Hin) as (p & n & Hp & Hn & Heq).
  eexists. exists n. split; [exact Heq|]. simpl. rewrite buttons_announce.
  split; [exact Hn|].
  intros r Hr. unfold widget_refs in Hr. simpl in Hr.
  rewrite buttons_announce in Hr.
  unfold update. rewrite store_announce. unfold render.
  destruct (Nat.eqb_spec r n) as [Hrn|Hrn];
    destruct (Nat.eqb_spec r p) as [Hrp|Hrp]; simpl.
  - subst. rewrite Nat.eqb_refl. simpl. split; [reflexivity | tauto].
  - subst. apply Nat.eqb_neq in Hrp. rewrite Hrp.
    split; [reflexivity | tauto].
  - subst. split; [reflexivity|]. split; [discriminate | contradiction].
  - rewrite (Hothers r Hr) by congruence.
    split; [reflexivity|]. split; [discriminate | contradiction].
Qed.

Lemma highlight_witness :
  exists s' n,
    change_button_focus (Member RIGHT) on_mount = Returned tt s' /\
    widget_at (_buttons s') (_focus_index_x s') (_focus_index_y s') = Some n /\
    forall r, In r (widget_refs s') ->
      render (store s' r) =
        Align (Panel (_text (store on_mount r))
                     (Some (if Nat.eqb r n then "on red" else "")))
              "center" /\
      (panel_style (render (store s' r)) = Some "on red" <-> r = n).
Proof.
  apply (only_the_focused_button_is_highlighted (Member RIGHT) on_mount).
  - apply in_gridb_spec. reflexivity.
  - intros r Hr _. vm_compute in Hr.
    destruct Hr as [<-|[<-|[]]]; reflexivity.
  - apply in_gridb_spec. reflexivity.
Defined.

(** The buttons of [on_mount] are those the constructor builds. *)
Example on_mount_buttons_constructed :
  store on_mount 0%nat
    = MyButton__init__ (Some START) (Some watch_status_method)
                       (Some ["top_button"]) /\
  store on_mount 1%nat = MyButton__init__ (Some STOP) None None /\
  render (MyButton__init__ None None None) = Align (Panel "" (Some "")) "center".
Proof. repeat split. Qed.
